(** * SEIR-Interactive: the explicit Euler integrator and the SEIR model

    A shallow embedding of the numerical core of [SEIR.py]
    ([euler], [SEIR_model], [SEIR_simulation]), of the two callbacks of its
    interactive figure ([toggle_log_scale], [update]), and their properties.

    Numbers: Python floats are modelled in exact arithmetic, as rationals
    [Q] compared with [==]; rounding is outside this development.
    Exceptions: a Python call either returns a value or raises, which is
    the sum type [result]. *)

From Stdlib Require Import String DecimalString.
From Stdlib Require Import QArith Qround ZArith List Lia Lqa Setoid Morphisms.
Import ListNotations.

Local Open Scope Z_scope.
Local Open Scope Q_scope.

(** ** The Python runtime the program relies on *)

Module Py.

(** The only exception the core can raise in exact arithmetic. *)
Inductive exn : Set := ZeroDivisionError.

Definition result (A : Type) : Type := (exn + A)%type.

Definition ret {A : Type} (a : A) : result A := inr a.

Definition bind {A B : Type} (m : result A) (k : A -> result B) : result B :=
  match m with
  | inl e => inl e
  | inr a => k a
  end.

(** [a / b] on numbers: raises on a zero divisor. *)
Definition truediv (a b : Q) : result Q :=
  if Qeq_bool b 0 then inl ZeroDivisionError else ret (a / b).

(** [int(q)]: truncation toward zero. *)
Definition int (q : Q) : Z := Z.quot (Qnum q) (Z.pos (Qden q)).

(** [range(lo, hi)]: the integers [lo], [lo+1], ..., [hi-1]; empty when
    [hi <= lo]. *)
Definition range (lo hi : Z) : list Z :=
  map (fun i => (lo + Z.of_nat i)%Z) (seq 0 (Z.to_nat (hi - lo))).

(** [zip( *rows )] on a list of pairs: the tuple of first components and
    the tuple of second components. *)
Definition unzip {A B : Type} (l : list (A * B)) : list A * list B := split l.

End Py.

Notation "x <- m ;; k" := (Py.bind m (fun x => k))
  (at level 61, m at next level, right associativity).

(** ** State arithmetic

    [euler] is generic in the state: it only needs [x + y] and [h * x].
    A Python float and a numpy array both provide them. *)

Class Arith (X : Type) : Type := {
  add : X -> X -> X;
  scale : Q -> X -> X
}.

#[export] Instance Arith_float : Arith Q := {|
  add := Qplus;
  scale := Qmult
|}.

(** A numpy array of shape (4,), as [np.array([S, E, I, R])] builds it. *)
Record array4 : Set := Array4 {
  compS : Q;
  compE : Q;
  compI : Q;
  compR : Q
}.

#[export] Instance Arith_array4 : Arith array4 := {|
  add := fun x y =>
    Array4 (compS x + compS y) (compE x + compE y)
           (compI x + compI y) (compR x + compR y);
  scale := fun h x =>
    Array4 (h * compS x) (h * compE x) (h * compI x) (h * compR x)
|}.

(** Equality of arrays up to the representation of each rational. *)
Definition array4_eq (x y : array4) : Prop :=
  compS x == compS y /\ compE x == compE y /\
  compI x == compI y /\ compR x == compR y.

#[export] Instance array4_eq_Equivalence : Equivalence array4_eq.
Proof.
  split.
  - intro x. repeat split; reflexivity.
  - intros x y (?&?&?&?). repeat split; now symmetry.
  - intros x y z (?&?&?&?) (?&?&?&?). repeat split; etransitivity; eassumption.
Qed.

(** [x.sum()] *)
Definition total (x : array4) : Q := compS x + compE x + compI x + compR x.

(** ** [euler] *)

(** The number of iterations of the loop. *)
Definition steps (t0 t1 h : Q) : nat := Z.to_nat (1 + Py.int ((t1 - t0) / h)).

Section Euler.

Context {X : Type} `{Arith X}.
Variable f : Q -> X -> X.

(** The body of [for k in range(...)], threading [x] and [trajectory]. *)
Fixpoint euler_loop (t0 h : Q) (ks : list Z) (x : X)
         (trajectory : list (Q * X)) : list (Q * X) :=
  match ks with
  | [] => trajectory
  | k :: ks' =>
      let t := t0 + inject_Z k * h in
      let x := add x (scale h (f t x)) in
      euler_loop t0 h ks' x (trajectory ++ [(t, x)])
  end.

Definition euler (t0 : Q) (x0 : X) (t1 h : Q) : Py.result (list (Q * X)) :=
  q <- Py.truediv (t1 - t0) h ;;
  Py.ret (euler_loop t0 h (Py.range 0 (1 + Py.int q)) x0 [(t0, x0)]).

(** The state after [k] Euler updates from [x0], the [k]-th of them
    evaluating [f] at time [t0 + k*h]. *)
Fixpoint euler_state (t0 h : Q) (x0 : X) (k : nat) : X :=
  match k with
  | O => x0
  | S k' =>
      let x := euler_state t0 h x0 k' in
      add x (scale h (f (t0 + inject_Z (Z.of_nat k') * h) x))
  end.

(** The pair appended by loop iteration [k]. *)
Definition appended (t0 h : Q) (x0 : X) (k : nat) : Q * X :=
  (t0 + inject_Z (Z.of_nat k) * h, euler_state t0 h x0 (S k)).

End Euler.

(** ** [SEIR_model] *)

Definition SEIR_model (beta alpha gamma : Q) : Q -> array4 -> array4 :=
  fun _ x =>
    match x with
    | Array4 s e i _ =>
        Array4 (- beta * s * i)
               (beta * s * i - alpha * e)
               (alpha * e - gamma * i)
               (gamma * i)
    end.

(** ** [SEIR_simulation] *)

(** [np.array(x)] of a sequence of arrays: the rows of a matrix. *)
Definition tolist (x : array4) : list Q := [compS x; compE x; compI x; compR x].

(** [m.T]: entry [(j, i)] of the result is entry [(i, j)] of [m]; the
    number of columns of [m] is that of its first row. *)
Definition transpose (m : list (list Q)) : list (list Q) :=
  let ncols := match m with [] => O | r :: _ => length r end in
  map (fun j => map (fun r => nth j r 0) m) (seq 0 ncols).

Definition default_step : Q := 1 # 10.

(** The value of the keyword argument [step=0.1]. *)
Definition step_or_default (step : option Q) : Q :=
  match step with Some s => s | None => default_step end.

Definition SEIR_simulation (beta alpha gamma E0 I0 days : Q) (step : option Q)
  : Py.result (list Q * list (list Q)) :=
  let step := step_or_default step in
  let S0 := 1 - E0 - I0 in
  let x0 := Array4 S0 E0 I0 0 in
  let f := SEIR_model beta alpha gamma in
  result <- euler f 0 x0 days step ;;
  let (t, x) := Py.unzip result in
  Py.ret (t, transpose (map tolist x)).

(** ** The preconditions named by the specification *)





(** The times and the states of a trajectory. *)
Definition times {X : Type} (trajectory : list (Q * X)) : list Q :=
  map fst trajectory.

Definition states {X : Type} (trajectory : list (Q * X)) : list X :=
  map snd trajectory.

(** The time series and the four compartment series of a trajectory. *)
Definition series (trajectory : list (Q * array4)) : list Q * list (list Q) :=
  (times trajectory,
   [map compS (states trajectory); map compE (states trajectory);
    map compI (states trajectory); map compR (states trajectory)]).

(** ** Regimes of the model *)

(** The state is a distribution of the population over the compartments. *)
Definition in_simplex (x : array4) : Prop :=
  0 <= compS x /\ 0 <= compE x /\ 0 <= compI x /\ 0 <= compR x /\
  total x == 1.

(** Non-negative rates and a positive step over which no rate moves more
    than the whole of a compartment. *)
Definition stable_step (beta alpha gamma h : Q) : Prop :=
  0 < h /\ 0 <= beta /\ 0 <= alpha /\ 0 <= gamma /\
  h * beta <= 1 /\ h * alpha <= 1 /\ h * gamma <= 1.

Definition unit_interval (v : Q) : Prop := 0 <= v /\ v <= 1.

(** ** The interactive layer: [diagram]

    Of [diagram] the two callbacks are modelled: [toggle_log_scale] and
    [update]. The figure is reduced to what they read and write: the texts
    of the six text boxes, the value of the slider, the data of the four
    curves and the scale of the y axis. Redrawing ([relim],
    [autoscale_view], [draw_idle]) changes none of these. *)

Module Gui.

(** What a statement of [update] can raise: the [ValueError] of [int],
    [float] and tuple unpacking, or an exception of the core. *)
Inductive exn : Set :=
| ValueError
| Core (e : Py.exn).

Definition result (A : Type) : Type := (exn + A)%type.

Definition bind {A B : Type} (m : result A) (k : A -> result B) : result B :=
  match m with
  | inl e => inl e
  | inr a => k a
  end.

(** [textboxes_widgets] (its six fixed keys, in the order of the source)
    and [slider_R0]. *)
Record widgets : Set := Widgets {
  text_N : string;
  text_E0 : string;
  text_I0 : string;
  text_days : string;
  text_alpha : string;
  text_gamma : string;
  slider_R0 : Q
}.

(** A curve: what [set_xdata] and [set_ydata] store. *)
Record line : Set := Line {
  xdata : list Q;
  ydata : list Q
}.

Record figure : Set := Figure {
  line_S : line;
  line_E : line;
  line_I : line;
  line_R : line;
  yscale : string
}.

Definition invalid_input : string :=
  "Invalid input! Please enter numeric values."%string.

(** [ax.set_yscale('log' if ax.get_yscale() == 'linear' else 'linear')] *)
Definition toggle_log_scale (fig : figure) : figure :=
  Figure (line_S fig) (line_E fig) (line_I fig) (line_R fig)
         (if String.eqb (yscale fig) "linear" then "log" else "linear")%string.

Section Update.

(** [int(text)] and [float(text)] of Python; [None] is their [ValueError]. *)
Variable int_of_text : string -> option Z.
Variable float_of_text : string -> option Q.

Definition parse {A : Type} (of_text : string -> option A) (text : string)
  : result A :=
  match of_text text with
  | Some a => inr a
  | None => inl ValueError
  end.

(** [a / N] on two integers. *)
Definition int_truediv (a b : Z) : result Q :=
  match Py.truediv (inject_Z a) (inject_Z b) with
  | inl e => inl (Core e)
  | inr q => inr q
  end.

(** The body of the [try] block: the statements run in this order and the
    first exception ends it. *)
Definition read_inputs (w : widgets) : result (Q * Q * Z * Q * Q) :=
  bind (parse int_of_text (text_N w)) (fun N =>
  bind (parse int_of_text (text_E0 w)) (fun e =>
  bind (int_truediv e N) (fun E0 =>
  bind (parse int_of_text (text_I0 w)) (fun i =>
  bind (int_truediv i N) (fun I0 =>
  bind (parse int_of_text (text_days w)) (fun days =>
  bind (parse float_of_text (text_alpha w)) (fun alpha =>
  bind (parse float_of_text (text_gamma w)) (fun gamma =>
  inr (E0, I0, days, alpha, gamma))))))))).

(** [update]: the figure and the printed lines before, and after. Only
    [ValueError] is caught. *)
Definition update (w : widgets) (fig : figure) (stdout : list string)
  : result (figure * list string) :=
  match read_inputs w with
  | inl ValueError => inr (fig, stdout ++ [invalid_input])
  | inl (Core e) => inl (Core e)
  | inr (E0, I0, days, alpha, gamma) =>
      let R0 := slider_R0 w in
      let beta := R0 * gamma in
      match SEIR_simulation beta alpha gamma E0 I0 (inject_Z days) None with
      | inl e => inl (Core e)
      | inr (t, [cS; cE; cI; cR]) =>
          inr (Figure (Line t cS) (Line t cE) (Line t cI) (Line t cR)
                      (yscale fig),
               stdout)
      | inr _ => inl ValueError
      end
  end.

End Update.

(** Plain decimal numerals, with an optional minus sign: a fragment of the
    texts that [int] and [float] accept, used to run [update]. *)
Definition decimal (text : string) : option Z :=
  option_map Z.of_int (NilZero.int_of_string text).

Definition decimal_float (text : string) : option Q :=
  option_map inject_Z (decimal text).

End Gui.

(** * Properties *)

(** ** The Python runtime *)

Lemma range_from_zero (m : Z) :
  Py.range 0 m = map Z.of_nat (seq 0 (Z.to_nat m)).
Proof.
  unfold Py.range. rewrite Z.sub_0_r.
  apply map_ext. intro i. reflexivity.
Qed.

Lemma int_floor (q : Q) : 0 <= q -> Py.int q = Qfloor q.
Proof.
  destruct q as [n d]. unfold Qle, Py.int, Qfloor. simpl. intro Hn.
  apply Z.quot_div_nonneg; lia.
Qed.

Lemma truediv_nonzero (a b : Q) : ~ b == 0 -> Py.truediv a b = inr (a / b).
Proof.
  intro Hb. unfold Py.truediv.
  destruct (Qeq_bool b 0) eqn:E; [|reflexivity].
  apply Qeq_bool_iff in E. contradiction.
Qed.

Lemma truediv_zero (a b : Q) : b == 0 -> Py.truediv a b = inl Py.ZeroDivisionError.
Proof.
  intro Hb. unfold Py.truediv.
  apply Qeq_bool_iff in Hb. rewrite Hb. reflexivity.
Qed.

Lemma quotient_nonneg (a b h : Q) : 0 < h -> a <= b -> 0 <= (b - a) / h.
Proof.
  intros Hh Hab. apply Qle_shift_div_l; [assumption|]. lra.
Qed.

(** ** The loop of [euler] *)

Section EulerFacts.

Context {X : Type} `{Arith X}.
Variable f : Q -> X -> X.
Variables t0 h : Q.
Variable x0 : X.

Lemma euler_loop_seq (n a : nat) (trajectory : list (Q * X)) :
  euler_loop f t0 h (map Z.of_nat (seq a n)) (euler_state f t0 h x0 a) trajectory
  = trajectory ++ map (appended f t0 h x0) (seq a n).
Proof.
  revert a trajectory. induction n as [|n IH]; intros a trajectory.
  - simpl. now rewrite app_nil_r.
  - cbn [seq map euler_loop].
    change (add (euler_state f t0 h x0 a)
                (scale h (f (t0 + inject_Z (Z.of_nat a) * h) (euler_state f t0 h x0 a))))
      with (euler_state f t0 h x0 (S a)).
    rewrite IH, <- app_assoc. reflexivity.
Qed.

Lemma euler_returns (t1 : Q) :
  ~ h == 0 ->
  euler f t0 x0 t1 h
  = inr ((t0, x0) :: map (appended f t0 h x0) (seq 0 (steps t0 t1 h))).
Proof.
  intro Hh. unfold euler. rewrite truediv_nonzero by assumption.
  cbn [Py.bind Py.ret]. rewrite range_from_zero.
  change x0 with (euler_state f t0 h x0 0) at 1.
  rewrite euler_loop_seq. reflexivity.
Qed.

Lemma euler_raises (t1 : Q) :
  h == 0 -> euler f t0 x0 t1 h = inl Py.ZeroDivisionError.
Proof.
  intro Hh. unfold euler. now rewrite truediv_zero.
Qed.

Lemma steps_floor (t1 : Q) :
  0 < h -> t0 <= t1 ->
  Z.of_nat (steps t0 t1 h) = (1 + Qfloor ((t1 - t0) / h))%Z.
Proof.
  intros Hh Ht. unfold steps.
  pose proof (quotient_nonneg t0 t1 h Hh Ht) as Hq.
  rewrite int_floor by assumption.
  assert (0 <= Qfloor ((t1 - t0) / h))%Z.
  { change 0%Z with (Qfloor 0). now apply Qfloor_resp_le. }
  lia.
Qed.








End EulerFacts.

(** A run of the loop: three appended pairs after the initial one. *)
Example euler_run :
  euler (fun _ x => x) 0 1 2 1 = inr [(0, 1); (0, 2); (1, 4); (2, 8)].
Proof. reflexivity. Qed.

(** ** The integrator *)

Section Integrator.

Context {X : Type} `{Arith X}.
Variable f : Q -> X -> X.




End Integrator.

(** Witnesses and concrete runs of the integrator. *)






(** C1. On [f(t, x) = 1], [t0 = 0], [x0 = 0], [t1 = 1], [h = 1] the code
    returns the pairs (0,0), (0,1), (1,2): the states follow the update rule,
    but the pair at index 1 carries time [0], not [t0 + 1*h = 1], and the
    pair at index 2 carries time [1], not [2]. *)
Theorem euler_time_lags_state :
  euler (fun _ _ : Q => 1) 0 0 1 1 = inr [(0, 0); (0, 1); (1, 2)] /\
  ~ 0 == 0 + inject_Z 1 * 1.
Proof.
  split; [reflexivity | discriminate].
Qed.

(** C5. On the same run the first two times are equal: their difference is
    [0], not [h = 1]. *)
Theorem euler_first_gap_is_zero :
  exists trajectory,
    euler (fun _ _ : Q => 1) 0 0 1 1 = inr trajectory /\
    nth 1 (times trajectory) 0 - nth 0 (times trajectory) 0 == 0 /\
    ~ nth 1 (times trajectory) 0 - nth 0 (times trajectory) 0 == 1.
Proof.
  eexists. split; [reflexivity|]. split; [reflexivity | discriminate].
Qed.

(** ** The SEIR model *)

Lemma total_SEIR_model (beta alpha gamma t : Q) (x : array4) :
  total (SEIR_model beta alpha gamma t x) == 0.
Proof.
  destruct x as [s e i r]. unfold total. cbn. ring.
Qed.

(** C6. The four derivatives returned by the model sum to zero, for every
    choice of rates and every state. *)
Theorem SEIR_model_sums_to_zero (beta alpha gamma t : Q) (x : array4) :
  let d := SEIR_model beta alpha gamma t x in
  compS d + compE d + compI d + compR d == 0.
Proof.
  exact (total_SEIR_model beta alpha gamma t x).
Qed.

Lemma total_update (h : Q) (x d : array4) :
  total (add x (scale h d)) == total x + h * total d.
Proof.
  unfold total. cbn. ring.
Qed.

Lemma total_euler_state (beta alpha gamma t0 h : Q) (x0 : array4) (k : nat) :
  total (euler_state (SEIR_model beta alpha gamma) t0 h x0 k) == total x0.
Proof.
  induction k as [|k IH]; [reflexivity|].
  cbn [euler_state]. rewrite total_update, IH.
  rewrite total_SEIR_model. ring.
Qed.

Lemma zero_force_update (beta alpha gamma t h : Q) (x : array4) :
  beta == 0 -> alpha == 0 -> gamma == 0 ->
  array4_eq (add x (scale h (SEIR_model beta alpha gamma t x))) x.
Proof.
  intros Hb Ha Hg. destruct x as [s e i r].
  repeat split; cbn; rewrite ?Hb, ?Ha, ?Hg; ring.
Qed.

Lemma zero_force_euler_state (beta alpha gamma t0 h : Q) (x0 : array4) (k : nat) :
  beta == 0 -> alpha == 0 -> gamma == 0 ->
  array4_eq (euler_state (SEIR_model beta alpha gamma) t0 h x0 k) x0.
Proof.
  intros Hb Ha Hg. induction k as [|k IH]; [reflexivity|].
  cbn [euler_state]. etransitivity; [|exact IH].
  now apply zero_force_update.
Qed.

(** Every state of the trajectory is one of the [euler_state]s. *)
Lemma states_euler_state {X : Type} `{Arith X} (f : Q -> X -> X)
      (t0 h : Q) (x0 : X) (n : nat) (x : X) :
  In x (states ((t0, x0) :: map (appended f t0 h x0) (seq 0 n))) ->
  exists k, x = euler_state f t0 h x0 k.
Proof.
  unfold states. cbn [map snd In]. intros [<- | Hin].
  - now exists O.
  - rewrite map_map in Hin. apply in_map_iff in Hin.
    destruct Hin as [k [<- _]]. now exists (S k).
Qed.

(** ** The simulation entry point *)

Lemma unzip_maps {A B : Type} (l : list (A * B)) :
  Py.unzip l = (map fst l, map snd l).
Proof.
  unfold Py.unzip. induction l as [|[a b] l IH]; [reflexivity|].
  cbn [split map fst snd]. now rewrite IH.
Qed.

Lemma transpose_rows (x : array4) (xs : list array4) :
  transpose (map tolist (x :: xs))
  = [map compS (x :: xs); map compE (x :: xs);
     map compI (x :: xs); map compR (x :: xs)].
Proof.
  unfold transpose. cbn [map tolist length seq].
  rewrite !map_map. reflexivity.
Qed.


Lemma SEIR_simulation_returns (beta alpha gamma E0 I0 days : Q) (step : option Q) :
  let h := step_or_default step in
  let f := SEIR_model beta alpha gamma in
  let x0 := Array4 (1 - E0 - I0) E0 I0 0 in
  ~ h == 0 ->
  SEIR_simulation beta alpha gamma E0 I0 days step
  = inr (series ((0, x0) :: map (appended f 0 h x0) (seq 0 (steps 0 days h)))).
Proof.
  intros h f x0 Hh. unfold SEIR_simulation. fold h f x0.
  rewrite (euler_returns f 0 h x0 days Hh). cbn [Py.bind].
  rewrite unzip_maps. unfold Py.ret, series, times, states.
  do 2 f_equal. exact (transpose_rows x0 _).
Qed.

Lemma SEIR_simulation_raises (beta alpha gamma E0 I0 days : Q) (step : option Q) :
  step_or_default step == 0 ->
  SEIR_simulation beta alpha gamma E0 I0 days step = inl Py.ZeroDivisionError.
Proof.
  intro Hh. unfold SEIR_simulation.
  now rewrite euler_raises.
Qed.

(** C7. [SEIR_simulation] computes [S0 = 1 - E0 - I0], builds
    [x0 = (S0, E0, I0, 0)], runs [euler] from [0] to [days] with the model's
    derivative and the step (0.1 when none is given), and returns the times
    together with the four compartment series, each listing its component of
    the states in the order of the trajectory. *)
Theorem SEIR_simulation_contract
        (beta alpha gamma E0 I0 days : Q) (step : option Q) :
  let h := match step with Some s => s | None => 1 # 10 end in
  let S0 := 1 - E0 - I0 in
  let x0 := Array4 S0 E0 I0 0 in
  SEIR_simulation beta alpha gamma E0 I0 days step
  = (trajectory <- euler (SEIR_model beta alpha gamma) 0 x0 days h ;;
     Py.ret (map fst trajectory,
             [map (fun p => compS (snd p)) trajectory;
              map (fun p => compE (snd p)) trajectory;
              map (fun p => compI (snd p)) trajectory;
              map (fun p => compR (snd p)) trajectory])).
Proof.
  intros h S0 x0.
  change h with (step_or_default step) in *.
  destruct (Qeq_dec (step_or_default step) 0) as [Hz | Hnz].
  - rewrite SEIR_simulation_raises, euler_raises by assumption. reflexivity.
  - rewrite SEIR_simulation_returns, euler_returns by assumption.
    cbn [Py.bind]. unfold Py.ret, series, times, states.
    rewrite !map_map. reflexivity.
Qed.



(** C9. With [beta = alpha = gamma = 0] every state of the trajectory equals
    the initial state: for the integrator run on the model from any [x0],
    and for the series returned by [SEIR_simulation]. *)
Theorem zero_force_fixed_point (beta alpha gamma : Q) :
  beta == 0 -> alpha == 0 -> gamma == 0 ->
  (forall (t0 : Q) (x0 : array4) (t1 h : Q),
      ~ h == 0 ->
      exists trajectory,
        euler (SEIR_model beta alpha gamma) t0 x0 t1 h = inr trajectory /\
        Forall (fun x => array4_eq x x0) (states trajectory)) /\
  (forall (E0 I0 days : Q) (step : option Q),
      ~ step_or_default step == 0 ->
      exists ts Ss Es Is Rs,
        SEIR_simulation beta alpha gamma E0 I0 days step
        = inr (ts, [Ss; Es; Is; Rs]) /\
        Forall (fun s => s == 1 - E0 - I0) Ss /\ Forall (fun e => e == E0) Es /\
        Forall (fun i => i == I0) Is /\ Forall (fun r => r == 0) Rs).
Proof.
  intros Hb Ha Hg.
  assert (Fix : forall t0 h x0 n x,
             In x (states ((t0, x0) :: map (appended (SEIR_model beta alpha gamma)
                                                     t0 h x0) (seq 0 n))) ->
             array4_eq x x0).
  { intros t0 h x0 n x Hin.
    destruct (states_euler_state _ _ _ _ _ _ Hin) as [k ->].
    now apply zero_force_euler_state. }
  split.
  - intros t0 x0 t1 h Hh. eexists. split; [now apply euler_returns|].
    apply Forall_forall. intros x Hin. exact (Fix _ _ _ _ _ Hin).
  - intros E0 I0 days step Hh.
    rewrite SEIR_simulation_returns by assumption. unfold series.
    do 5 eexists. split; [reflexivity|].
    repeat split; apply Forall_forall; intros q Hq;
      apply in_map_iff in Hq; destruct Hq as [x [<- Hin]];
      apply Fix in Hin; destruct Hin as (HS & HE & HI & HR); assumption.
Qed.

Lemma zero_force_fixed_point_witness :
  0 == 0 /\ 0 == 0 /\ 0 == 0 /\
  (forall (t0 : Q) (x0 : array4) (t1 h : Q),
      ~ h == 0 ->
      exists trajectory,
        euler (SEIR_model 0 0 0) t0 x0 t1 h = inr trajectory /\
        Forall (fun x => array4_eq x x0) (states trajectory)) /\
  (forall (E0 I0 days : Q) (step : option Q),
      ~ step_or_default step == 0 ->
      exists ts Ss Es Is Rs,
        SEIR_simulation 0 0 0 E0 I0 days step = inr (ts, [Ss; Es; Is; Rs]) /\
        Forall (fun s => s == 1 - E0 - I0) Ss /\ Forall (fun e => e == E0) Es /\
        Forall (fun i => i == I0) Is /\ Forall (fun r => r == 0) Rs).
Proof.
  split; [reflexivity|]. split; [reflexivity|]. split; [reflexivity|].
  apply (zero_force_fixed_point 0 0 0); reflexivity.
Defined.



(** * Further properties of the code *)

(** ** [int] on negative numbers *)

Lemma int_opp (q : Q) : Py.int (- q) = (- Py.int q)%Z.
Proof.
  destruct q as [n d]. unfold Py.int. simpl.
  apply Z.quot_opp_l. discriminate.
Qed.

Lemma int_nonpos (q : Q) : q <= 0 -> Py.int q = (- Qfloor (- q))%Z.
Proof.
  intro Hq. rewrite <- int_floor by lra. rewrite int_opp. lia.
Qed.

Lemma int_comp (q q' : Q) : q == q' -> Py.int q = Py.int q'.
Proof.
  intro E. destruct (Qlt_le_dec q 0) as [Hneg | Hpos].
  - rewrite !int_nonpos by lra. now rewrite E.
  - rewrite !int_floor by lra. now rewrite E.
Qed.




Lemma nth_error_appended_inv {A : Type} (g : nat -> A) (a p : A) (n k : nat) :
  nth_error (a :: map g (seq 0 n)) (S k) = Some p -> (k < n)%nat /\ p = g k.
Proof.
  cbn [nth_error]. rewrite nth_error_map, nth_error_seq.
  destruct (Nat.ltb_spec k n); cbn; [|discriminate].
  intro E. injection E as <-. now split.
Qed.

(** ** The integrator: errors, recurrence and edge cases *)

Section IntegratorEdges.

Context {X : Type} `{Arith X}.
Variable f : Q -> X -> X.

Lemma euler_inr_inv (t0 : Q) (x0 : X) (t1 h : Q) (trajectory : list (Q * X)) :
  euler f t0 x0 t1 h = inr trajectory ->
  ~ h == 0 /\
  trajectory = (t0, x0) :: map (appended f t0 h x0) (seq 0 (steps t0 t1 h)).
Proof.
  intro E. destruct (Qeq_dec h 0) as [Hz | Hnz].
  - rewrite euler_raises in E by assumption. discriminate.
  - rewrite euler_returns in E by assumption. injection E as <-. now split.
Qed.


(** X2. Every entry of the trajectory after the first comes from the entry
    before it by one Euler update, with [f] evaluated at the time stored in
    the new entry: [x' = x + h * f(t', x)]. *)
Theorem euler_recurrence (t0 : Q) (x0 : X) (t1 h : Q)
        (trajectory : list (Q * X)) (k : nat) (t t' : Q) (x x' : X) :
  euler f t0 x0 t1 h = inr trajectory ->
  nth_error trajectory k = Some (t, x) ->
  nth_error trajectory (S k) = Some (t', x') ->
  x' = add x (scale h (f t' x)).
Proof.
  intros E Hk Hk'. apply euler_inr_inv in E as [_ ->].
  apply nth_error_appended_inv in Hk' as [_ Hk'].
  injection Hk' as -> ->.
  destruct k as [|k].
  - cbn in Hk. injection Hk as <- <-. reflexivity.
  - apply nth_error_appended_inv in Hk as [_ Hk].
    injection Hk as -> ->. reflexivity.
Qed.





(** X6. A later end time only extends the trajectory: for [h > 0] and
    [t0 <= t1 <= t2], what [euler] returns up to [t1] is a prefix of what
    it returns up to [t2]. *)
Theorem euler_prefix (t0 : Q) (x0 : X) (t1 t2 h : Q) :
  0 < h -> t0 <= t1 -> t1 <= t2 ->
  exists trajectory rest,
    euler f t0 x0 t1 h = inr trajectory /\
    euler f t0 x0 t2 h = inr (trajectory ++ rest).
Proof.
  intros Hh H1 H2.
  assert (Hs : (steps t0 t1 h <= steps t0 t2 h)%nat).
  { pose proof (steps_floor t0 h t1 Hh H1).
    pose proof (steps_floor t0 h t2 Hh (Qle_trans _ _ _ H1 H2)).
    assert (Qfloor ((t1 - t0) / h) <= Qfloor ((t2 - t0) / h))%Z.
    { apply Qfloor_resp_le. unfold Qdiv.
      apply Qmult_le_compat_r; [lra|]. apply Qinv_le_0_compat. lra. }
    lia. }
  exists ((t0, x0) :: map (appended f t0 h x0) (seq 0 (steps t0 t1 h))),
    (map (appended f t0 h x0)
         (seq (steps t0 t1 h) (steps t0 t2 h - steps t0 t1 h))).
  split; [apply euler_returns; lra|].
  rewrite euler_returns by lra.
  replace (steps t0 t2 h)
    with (steps t0 t1 h + (steps t0 t2 h - steps t0 t1 h))%nat at 1 by lia.
  rewrite seq_app, map_app. reflexivity.
Qed.

End IntegratorEdges.

(** ** The model along a trajectory *)


(** X7. The Euler update of the model moves mass between compartments
    only: whatever the rates, the step and the initial state, every state
    of the trajectory has the total of the initial state. *)
Theorem SEIR_total_preserved (beta alpha gamma t0 : Q) (x0 : array4)
        (t1 h : Q) (trajectory : list (Q * array4)) (x : array4) :
  euler (SEIR_model beta alpha gamma) t0 x0 t1 h = inr trajectory ->
  In x (states trajectory) ->
  total x == total x0.
Proof.
  intros E Hin. apply euler_inr_inv in E as [_ ->].
  apply states_euler_state in Hin as [k ->].
  apply total_euler_state.
Qed.

Lemma simplex_bounds (x : array4) :
  in_simplex x ->
  unit_interval (compS x) /\ unit_interval (compE x) /\
  unit_interval (compI x) /\ unit_interval (compR x).
Proof.
  unfold in_simplex, unit_interval, total. intros (?&?&?&?&?).
  repeat split; lra.
Qed.

Lemma simplex_update (beta alpha gamma h t : Q) (x : array4) :
  stable_step beta alpha gamma h -> in_simplex x ->
  in_simplex (add x (scale h (SEIR_model beta alpha gamma t x))).
Proof.
  intros (Hh & Hb & Ha & Hg & Hhb & Hha & Hhg) Hx.
  assert (T : total (add x (scale h (SEIR_model beta alpha gamma t x))) == 1).
  { rewrite total_update, total_SEIR_model.
    destruct Hx as (_ & _ & _ & _ & ->). ring. }
  destruct (simplex_bounds x Hx) as ((Hs & _) & (He & _) & (Hi & Hi1) & (Hr & _)).
  clear Hx. destruct x as [s e i r]. cbn in Hs, He, Hi, Hi1, Hr.
  assert (Nb : 0 <= h * beta) by (apply Qmult_le_0_compat; lra).
  assert (Na : 0 <= h * alpha) by (apply Qmult_le_0_compat; lra).
  assert (Ng : 0 <= h * gamma) by (apply Qmult_le_0_compat; lra).
  assert (P1 : 0 <= (1 - h * beta) * i) by (apply Qmult_le_0_compat; lra).
  assert (P2 : 0 <= s * (1 - h * beta * i)) by (apply Qmult_le_0_compat; lra).
  assert (P3 : 0 <= e * (1 - h * alpha)) by (apply Qmult_le_0_compat; lra).
  assert (P4 : 0 <= s * i) by (apply Qmult_le_0_compat; lra).
  assert (P5 : 0 <= (h * beta) * (s * i)) by (apply Qmult_le_0_compat; lra).
  assert (P6 : 0 <= i * (1 - h * gamma)) by (apply Qmult_le_0_compat; lra).
  assert (P7 : 0 <= (h * alpha) * e) by (apply Qmult_le_0_compat; lra).
  assert (P8 : 0 <= (h * gamma) * i) by (apply Qmult_le_0_compat; lra).
  unfold in_simplex. repeat split; try exact T; cbn; lra.
Qed.

Lemma simplex_euler_state (beta alpha gamma t0 h : Q) (x0 : array4) (k : nat) :
  stable_step beta alpha gamma h -> in_simplex x0 ->
  in_simplex (euler_state (SEIR_model beta alpha gamma) t0 h x0 k).
Proof.
  intros Hst Hx0. induction k as [|k IH]; [assumption|].
  cbn [euler_state]. now apply simplex_update.
Qed.

Lemma initial_state_in_simplex (E0 I0 : Q) :
  0 <= E0 -> 0 <= I0 -> E0 + I0 <= 1 ->
  in_simplex (Array4 (1 - E0 - I0) E0 I0 0).
Proof.
  intros HE HI HS. unfold in_simplex, total. cbn. repeat split; lra.
Qed.


(** X8. For initial fractions with [0 <= E0], [0 <= I0], [E0 + I0 <= 1],
    non-negative rates and a step [h > 0] with [h*beta], [h*alpha],
    [h*gamma <= 1], every value of the four series returned by
    [SEIR_simulation] lies between 0 and 1. *)
Theorem SEIR_simulation_stays_in_unit_interval
        (beta alpha gamma E0 I0 days : Q) (step : option Q) :
  0 <= E0 -> 0 <= I0 -> E0 + I0 <= 1 ->
  stable_step beta alpha gamma (step_or_default step) ->
  exists ts Ss Es Is Rs,
    SEIR_simulation beta alpha gamma E0 I0 days step
    = inr (ts, [Ss; Es; Is; Rs]) /\
    Forall unit_interval Ss /\ Forall unit_interval Es /\
    Forall unit_interval Is /\ Forall unit_interval Rs.
Proof.
  intros HE HI HS Hst.
  assert (Hh : ~ step_or_default step == 0) by (destruct Hst as [? _]; lra).
  rewrite SEIR_simulation_returns by assumption. unfold series.
  do 5 eexists. split; [reflexivity|].
  repeat split; apply Forall_forall; intros q Hq;
    apply in_map_iff in Hq; destruct Hq as [x [<- Hin]];
    apply states_euler_state in Hin as [k ->];
    eapply simplex_bounds, simplex_euler_state;
    eauto using initial_state_in_simplex.
Qed.



Lemma no_infection_update (beta alpha gamma h t : Q) (x : array4) :
  compE x == 0 -> compI x == 0 ->
  array4_eq (add x (scale h (SEIR_model beta alpha gamma t x))) x.
Proof.
  destruct x as [s e i r]. cbn. intros He Hi.
  repeat split; cbn; rewrite ?He, ?Hi; ring.
Qed.

Lemma no_infection_euler_state (beta alpha gamma t0 h : Q) (x0 : array4) (k : nat) :
  compE x0 == 0 -> compI x0 == 0 ->
  array4_eq (euler_state (SEIR_model beta alpha gamma) t0 h x0 k) x0.
Proof.
  intros He Hi. induction k as [|k IH]; [reflexivity|].
  cbn [euler_state]. etransitivity; [|exact IH].
  destruct IH as (_ & IHe & IHi & _).
  apply no_infection_update; [now rewrite IHe | now rewrite IHi].
Qed.

(** X10. Without exposed and infectious individuals at the start nothing
    ever happens: for [E0 = I0 = 0], any rates and any non-zero step, the
    susceptible series is constantly 1 and the three others constantly 0. *)
Theorem SEIR_simulation_no_infection
        (beta alpha gamma E0 I0 days : Q) (step : option Q) :
  E0 == 0 -> I0 == 0 ->
  ~ step_or_default step == 0 ->
  exists ts Ss Es Is Rs,
    SEIR_simulation beta alpha gamma E0 I0 days step
    = inr (ts, [Ss; Es; Is; Rs]) /\
    Forall (fun s => s == 1) Ss /\ Forall (fun e => e == 0) Es /\
    Forall (fun i => i == 0) Is /\ Forall (fun r => r == 0) Rs.
Proof.
  intros HE HI Hh.
  rewrite SEIR_simulation_returns by assumption. unfold series.
  do 5 eexists. split; [reflexivity|].
  repeat split; apply Forall_forall; intros q Hq;
    apply in_map_iff in Hq; destruct Hq as [x [<- Hin]];
    apply states_euler_state in Hin as [k ->];
    destruct (no_infection_euler_state beta alpha gamma 0
                (step_or_default step) (Array4 (1 - E0 - I0) E0 I0 0) k HE HI)
      as (Hs & He & Hi & Hr);
    cbn in Hs, He, Hi, Hr; lra.
Qed.

Lemma euler_state_autonomous (beta alpha gamma t0 h : Q) (x0 : array4) (k : nat) :
  euler_state (SEIR_model beta alpha gamma) t0 h x0 k
  = euler_state (SEIR_model beta alpha gamma) 0 h x0 k.
Proof.
  induction k as [|k IH]; [reflexivity|].
  cbn [euler_state]. rewrite IH. reflexivity.
Qed.

(** X11. The model does not depend on time, so neither do the states of
    its trajectory: integrating from [t0] to [t1] visits the same states as
    integrating from [0] to [t1 - t0]. *)
Theorem SEIR_time_shift (beta alpha gamma t0 : Q) (x0 : array4) (t1 h : Q) :
  ~ h == 0 ->
  exists trajectory shifted,
    euler (SEIR_model beta alpha gamma) t0 x0 t1 h = inr trajectory /\
    euler (SEIR_model beta alpha gamma) 0 x0 (t1 - t0) h = inr shifted /\
    states trajectory = states shifted.
Proof.
  intro Hh. do 2 eexists.
  split; [now apply euler_returns|]. split; [now apply euler_returns|].
  assert (Es : steps 0 (t1 - t0) h = steps t0 t1 h).
  { unfold steps.
    assert (E : (t1 - t0 - 0) / h == (t1 - t0) / h) by (field; assumption).
    now rewrite (int_comp _ _ E). }
  rewrite Es. unfold states. cbn [map snd]. f_equal.
  rewrite !map_map. apply map_ext. intro k. cbn [appended snd].
  apply euler_state_autonomous.
Qed.


(** ** The callbacks of [diagram] *)

Section UpdateFacts.

Variable int_of_text : string -> option Z.
Variable float_of_text : string -> option Q.


Lemma int_truediv_zero (a : Z) :
  Gui.int_truediv a 0 = inl (Gui.Core Py.ZeroDivisionError).
Proof. reflexivity. Qed.


(** X14. When the population text is the number 0, the text of the initial
    exposed count decides alone: if it is a number, [update] raises
    [ZeroDivisionError], which the [except ValueError] clause lets through,
    whatever the other texts; if it is malformed, the invalid-input line is
    printed. *)
Theorem update_zero_population
        (w : Gui.widgets) (fig : Gui.figure) (stdout : list string) :
  int_of_text (Gui.text_N w) = Some 0%Z ->
  Gui.update int_of_text float_of_text w fig stdout
  = match int_of_text (Gui.text_E0 w) with
    | Some _ => inl (Gui.Core Py.ZeroDivisionError)
    | None => inr (fig, stdout ++ [Gui.invalid_input])
    end.
Proof.
  intro HN. unfold Gui.update, Gui.read_inputs, Gui.parse.
  rewrite HN. destruct (int_of_text (Gui.text_E0 w)) as [e|]; reflexivity.
Qed.




End UpdateFacts.

(** X17. Toggling the scale twice from ['linear'] or from ['log'] gives
    the figure back. *)
Theorem toggle_log_scale_twice (fig : Gui.figure) :
  Gui.yscale fig = "linear"%string \/ Gui.yscale fig = "log"%string ->
  Gui.toggle_log_scale (Gui.toggle_log_scale fig) = fig.
Proof.
  destruct fig as [lS lE lI lR scale]. cbn.
  intros [-> | ->]; reflexivity.
Qed.

(** X18. Whatever the scale was, one toggle leaves it at ['log'] or
    ['linear'], so a third toggle undoes the second: toggling three times
    is toggling once. The curves are never touched. *)
Theorem toggle_log_scale_thrice (fig : Gui.figure) :
  Gui.toggle_log_scale (Gui.toggle_log_scale (Gui.toggle_log_scale fig))
  = Gui.toggle_log_scale fig /\
  Gui.line_S (Gui.toggle_log_scale fig) = Gui.line_S fig /\
  Gui.line_E (Gui.toggle_log_scale fig) = Gui.line_E fig /\
  Gui.line_I (Gui.toggle_log_scale fig) = Gui.line_I fig /\
  Gui.line_R (Gui.toggle_log_scale fig) = Gui.line_R fig.
Proof.
  destruct fig as [lS lE lI lR scale]. unfold Gui.toggle_log_scale. cbn.
  split; [|now repeat split].
  destruct (String.eqb scale "linear"); reflexivity.
Qed.

(** ** Runs of the further properties *)

Lemma euler_recurrence_witness :
  euler (fun _ x : Q => x) 0 1 2 1 = inr [(0, 1); (0, 2); (1, 4); (2, 8)] /\
  (4 : Q) = add 2 (scale 1 2).
Proof.
  split; [reflexivity|].
  exact (euler_recurrence (fun _ x : Q => x) 0 1 2 1
           [(0, 1); (0, 2); (1, 4); (2, 8)] 1 0 1 2 4
           eq_refl eq_refl eq_refl).
Defined.




Lemma euler_prefix_witness :
  0 < 1 /\ 0 <= 1 /\ 1 <= 2 /\
  exists trajectory rest,
    euler (fun _ x : Q => x) 0 1 1 1 = inr trajectory /\
    euler (fun _ x : Q => x) 0 1 2 1 = inr (trajectory ++ rest).
Proof.
  split; [reflexivity|]. split; [discriminate|]. split; [discriminate|].
  apply (euler_prefix (fun _ x : Q => x) 0 1 1 2 1);
    [reflexivity | discriminate | discriminate].
Defined.

Lemma SEIR_total_preserved_witness :
  exists trajectory x,
    euler (SEIR_model 1 1 1) 0 (Array4 (1 # 2) (1 # 4) (1 # 4) 0) 1 1
    = inr trajectory /\
    In x (states trajectory) /\
    total x == total (Array4 (1 # 2) (1 # 4) (1 # 4) 0).
Proof.
  do 2 eexists. split; [reflexivity|]. split.
  - right. left. reflexivity.
  - eapply (SEIR_total_preserved 1 1 1 0 _ 1 1); [reflexivity|].
    right. left. reflexivity.
Defined.

Lemma stable_default_step : stable_step (3 # 5) (2 # 11) (1 # 3) (step_or_default None).
Proof.
  unfold stable_step. repeat split; try reflexivity; discriminate.
Qed.

Lemma SEIR_simulation_stays_in_unit_interval_witness :
  stable_step (3 # 5) (2 # 11) (1 # 3) (step_or_default None) /\
  exists ts Ss Es Is Rs,
    SEIR_simulation (3 # 5) (2 # 11) (1 # 3) (1 # 1000) (1 # 5000) 1 None
    = inr (ts, [Ss; Es; Is; Rs]) /\
    Forall unit_interval Ss /\ Forall unit_interval Es /\
    Forall unit_interval Is /\ Forall unit_interval Rs.
Proof.
  split; [exact stable_default_step|].
  apply (SEIR_simulation_stays_in_unit_interval
           (3 # 5) (2 # 11) (1 # 3) (1 # 1000) (1 # 5000) 1 None);
    [discriminate | discriminate | discriminate | exact stable_default_step].
Defined.


Lemma SEIR_simulation_no_infection_witness :
  exists ts Ss Es Is Rs,
    SEIR_simulation (3 # 5) (2 # 11) (1 # 3) 0 0 1 None
    = inr (ts, [Ss; Es; Is; Rs]) /\
    Forall (fun s => s == 1) Ss /\ Forall (fun e => e == 0) Es /\
    Forall (fun i => i == 0) Is /\ Forall (fun r => r == 0) Rs.
Proof.
  apply (SEIR_simulation_no_infection (3 # 5) (2 # 11) (1 # 3) 0 0 1 None);
    [reflexivity | reflexivity | discriminate].
Defined.

Lemma SEIR_time_shift_witness :
  exists trajectory shifted,
    euler (SEIR_model 1 1 1) 5 (Array4 (1 # 2) (1 # 4) (1 # 4) 0) 7 1
    = inr trajectory /\
    euler (SEIR_model 1 1 1) 0 (Array4 (1 # 2) (1 # 4) (1 # 4) 0) (7 - 5) 1
    = inr shifted /\
    states trajectory = states shifted.
Proof.
  apply (SEIR_time_shift 1 1 1 5 (Array4 (1 # 2) (1 # 4) (1 # 4) 0) 7 1).
  discriminate.
Defined.



Lemma update_zero_population_witness :
  let w := Gui.Widgets "0" "10" "2" "days" "1" "1" 1 in
  let fig := Gui.Figure (Gui.Line [] []) (Gui.Line [] []) (Gui.Line [] [])
                        (Gui.Line [] []) "linear" in
  Gui.update Gui.decimal Gui.decimal_float w fig []
  = inl (Gui.Core Py.ZeroDivisionError).
Proof.
  intros w fig.
  exact (update_zero_population Gui.decimal Gui.decimal_float w fig [] eq_refl).
Defined.


Lemma toggle_log_scale_twice_witness :
  let fig := Gui.Figure (Gui.Line [0] [1]) (Gui.Line [0] [0]) (Gui.Line [0] [0])
                        (Gui.Line [0] [0]) "log" in
  Gui.toggle_log_scale (Gui.toggle_log_scale fig) = fig.
Proof.
  intro fig. apply (toggle_log_scale_twice fig). right. reflexivity.
Defined.
